(** * Audio emotion analyzer: a shallow embedding of
      [src/utils/audio-emotion-analyzer.py]

    The script is a command-line pipeline: load a pretrained classifier, load
    an audio file, run one forward pass, softmax the logits, zip them with a
    fixed list of labels, pick the best label and print one JSON object.

    Modelling choices.
    - Python floats are idealised as real numbers ([R]); softmax is the
      mathematical one.  Rounding, infinities and NaN are outside the model.
    - A Python [dict] is an association list in insertion order: [max] over
      [dict.items()] depends on that order.
    - The process is a small monad over the two output streams, with three
      outcomes: a value, a raised [Exception], or [SystemExit].
    - Third-party calls (transformers, librosa, traceback, os) are fields of
      an environment record; each either returns or raises an [Exception].
      What the libraries write on standard error by themselves is left out. *)

From Stdlib Require Import List Ascii String ZArith Reals Lra Lia Bool PeanoNat.
Import ListNotations.
Open Scope string_scope.

(** ** Python values *)

(** An exception object: its class name, [str(e)], and the text that
    [traceback.format_exc()] gives while it is being handled. *)
Record Exception : Type := mkException {
  exc_class : string;
  exc_str : string;
  exc_traceback : string
}.

(** The result of a call that may raise. *)
Definition py_result (A : Type) : Type := (Exception + A)%type.

(** What [json.dumps] can be given here. *)
#[warnings="-register-all"]
Inductive json : Type :=
| JBool (b : bool)
| JNumber (x : R)
| JString (s : string)
| JObject (kv : list (string * json)).

(** One [print] call: plain text, or the text of [json.dumps j]. *)
Inductive line : Type :=
| Text (s : string)
| JsonText (j : json).

(** ** Dictionaries (insertion ordered) *)
Module Dict.

Definition dict (V : Type) : Type := list (string * V).

Fixpoint get {V} (d : dict V) (k : string) : option V :=
  match d with
  | [] => None
  | (k', v) :: r => if String.eqb k k' then Some v else get r k
  end.

(** [d[k] = v]: an existing key keeps its position, a new key goes last. *)
Fixpoint set {V} (d : dict V) (k : string) (v : V) : dict V :=
  match d with
  | [] => [(k, v)]
  | (k', v') :: r =>
      if String.eqb k k' then (k', v) :: r else (k', v') :: set r k v
  end.

(** [{k: v for k, v in pairs}] *)
Definition comprehension {V} (pairs : list (string * V)) : dict V :=
  fold_left (fun d kv => set d (fst kv) (snd kv)) pairs [].

Definition items {V} (d : dict V) : list (string * V) := d.

Definition keys {V} (d : dict V) : list string := map fst d.

Definition values {V} (d : dict V) : list V := map snd d.

End Dict.

(** ** Built-ins *)

(** [zip(a, b)]: stops at the end of the shorter sequence. *)
Fixpoint zip {A B} (a : list A) (b : list B) : list (A * B) :=
  match a, b with
  | x :: a', y :: b' => (x, y) :: zip a' b'
  | _, _ => []
  end.

(** Raised by [max] on an empty iterable (the wording of the message is
    CPython's and varies between versions). *)
Definition ValueError_max_empty : Exception :=
  mkException "ValueError" "max() arg is an empty sequence"
    "Traceback (most recent call last): ValueError".

Definition IndexError_batch : Exception :=
  mkException "IndexError"
    "index 0 is out of bounds for dimension 0 with size 0"
    "Traceback (most recent call last): IndexError".

Definition ZeroDivisionError : Exception :=
  mkException "ZeroDivisionError" "division by zero"
    "Traceback (most recent call last): ZeroDivisionError".

Definition Rgtb (a b : R) : bool := if Rgt_dec a b then true else false.

Section Max.
Context {A : Type} (key : A -> R).

(** The loop of [max]: the held item is replaced only by a strictly
    greater one. *)
Fixpoint max_from (best : A) (l : list A) : A :=
  match l with
  | [] => best
  | x :: r => if Rgtb (key x) (key best) then max_from x r else max_from best r
  end.

(** [max(l, key=key)]; raises [ValueError] on an empty iterable. *)
Definition py_max (l : list A) : py_result A :=
  match l with
  | [] => inl ValueError_max_empty
  | x :: r => inr (max_from x r)
  end.
End Max.

(** [a / b] on ints: true division. *)
Definition truediv (a b : Z) : py_result R :=
  if Z.eqb b 0 then inl ZeroDivisionError else inr (IZR a / IZR b)%R.

(** [len(l)] *)
Definition len {A} (l : list A) : Z := Z.of_nat (List.length l).

(** ** torch *)

Definition Rsum (l : list R) : R := fold_right Rplus 0%R l.

(** [torch.nn.functional.softmax(row, dim=-1)] on one row. *)
Definition softmax (row : list R) : list R :=
  map (fun x => (exp x / Rsum (map exp row))%R) row.

(** [probs[0]] on a batch of rows. *)
Definition index0 {A} (batch : list A) : py_result A :=
  match batch with
  | [] => inl IndexError_batch
  | row :: _ => inr row
  end.

(** ** The process monad *)

Record world : Type := mkWorld {
  stdout : list line;
  stderr : list line
}.

Definition empty_world : world := mkWorld [] [].

Inductive outcome (A : Type) : Type :=
| Ret (a : A)
| Raise (e : Exception)
| Exit (code : Z).
Arguments Ret {A} a.
Arguments Raise {A} e.
Arguments Exit {A} code.

Definition proc (A : Type) : Type := world -> outcome A * world.

Definition ret {A} (a : A) : proc A := fun w => (Ret a, w).

Definition bind {A B} (m : proc A) (k : A -> proc B) : proc B :=
  fun w =>
    match m w with
    | (Ret a, w') => k a w'
    | (Raise e, w') => (Raise e, w')
    | (Exit c, w') => (Exit c, w')
    end.

Notation "x <- m ;; k" := (bind m (fun x => k))
  (at level 61, m at next level, right associativity).
Notation "m ;;; k" := (bind m (fun _ => k))
  (at level 61, right associativity).

(** A call into a library: it returns or raises.  What a library itself
    writes on the streams while it runs (warnings, download progress) is not
    modelled. *)
Definition call {A} (r : py_result A) : proc A :=
  fun w => match r with inl e => (Raise e, w) | inr a => (Ret a, w) end.

(** [sys.exit(code)]: raises [SystemExit], which is not an [Exception]. *)
Definition sys_exit {A} (code : Z) : proc A := fun w => (Exit code, w).

(** [try: body  except Exception as e: handler e] *)
Definition try_except {A} (body : proc A) (handler : Exception -> proc A)
  : proc A :=
  fun w =>
    match body w with
    | (Raise e, w') => handler e w'
    | other => other
    end.

Definition print_stdout (l : line) : proc unit :=
  fun w => (Ret tt, mkWorld (stdout w ++ [l]) (stderr w)).

Definition print_stderr (l : line) : proc unit :=
  fun w => (Ret tt, mkWorld (stdout w) (stderr w ++ [l])).

(** ** Third-party objects *)

(** Model input tensors ([inputs.input_values]). *)
Definition Inputs : Type := list (list R).

(** A feature extractor is what calling it does. *)
Definition FeatureExtractor : Type := list R -> Z -> py_result Inputs.

(** A classifier is its forward pass: a batch of logit rows. *)
Definition Classifier : Type := Inputs -> py_result (list (list R)).

Record Env : Type := mkEnv {
  (** [os.path.expanduser("~")] *)
  home : string;
  (** [Wav2Vec2FeatureExtractor.from_pretrained(name, cache_dir=...)] *)
  fe_from_pretrained : string -> string -> py_result FeatureExtractor;
  (** [Wav2Vec2ForSequenceClassification.from_pretrained(name, cache_dir=...)] *)
  model_from_pretrained : string -> string -> py_result Classifier;
  (** [model.eval()] *)
  model_eval : Classifier -> py_result unit;
  (** [librosa.load(path, sr=sr, mono=True)] *)
  librosa_load : string -> Z -> py_result (list R * Z)
}.

(** librosa's documented behaviour: with [sr] given, the signal is resampled
    and the returned rate is [sr]. *)
Definition librosa_contract (env : Env) : Prop :=
  forall path sr audio sr',
    librosa_load env path sr = inr (audio, sr') -> sr' = sr.

(** ** The script *)

Definition MODEL_NAME : string :=
  "ehcalabres/wav2vec2-lg-xlsr-en-speech-emotion-recognition".

Definition EMOTIONS : list string :=
  ["angry"; "calm"; "disgust"; "fearful"; "happy"; "neutral"; "sad"; "surprised"].

(** [os.path.join] (POSIX).  A component that starts with the separator
    replaces what came before; otherwise it is appended, with a separator
    unless the path so far is empty or already ends with one. *)
Definition starts_with_sep (s : string) : bool :=
  match s with
  | String c _ => Ascii.eqb c "/"
  | EmptyString => false
  end.

Fixpoint ends_with_sep (s : string) : bool :=
  match s with
  | EmptyString => false
  | String c EmptyString => Ascii.eqb c "/"
  | String _ r => ends_with_sep r
  end.

Definition join2 (path b : string) : string :=
  if starts_with_sep b then b
  else if (String.eqb path "" || ends_with_sep path)%bool then path ++ b
  else path ++ "/" ++ b.

Definition path_join (a : string) (p : list string) : string :=
  fold_left join2 p a.

(** The [try] suite of [load_model]. *)
Definition load_model_body (env : Env) : proc (FeatureExtractor * Classifier) :=
  let cache_dir := path_join (home env) [".cache"; "huggingface"; "transformers"] in
  feature_extractor <- call (fe_from_pretrained env MODEL_NAME cache_dir) ;;
  model <- call (model_from_pretrained env MODEL_NAME cache_dir) ;;
  call (model_eval env model) ;;;
  ret (feature_extractor, model).

Definition load_model (env : Env) : proc (FeatureExtractor * Classifier) :=
  try_except
    (load_model_body env)
    (fun e =>
       print_stderr (JsonText (JObject
         [("error", JString ("Failed to load model: " ++ exc_str e));
          ("traceback", JString (exc_traceback e))])) ;;;
       sys_exit 1).

(** The [try] suite of [load_audio]. *)
Definition load_audio_body (env : Env) (file_path : string) (target_sr : Z)
  : proc (list R * Z) :=
  p <- call (librosa_load env file_path target_sr) ;;
  let '(audio, sr) := p in
  ret (audio, sr).

Definition load_audio (env : Env) (file_path : string) (target_sr : Z)
  : proc (list R * Z) :=
  try_except
    (load_audio_body env file_path target_sr)
    (fun e =>
       print_stderr (JsonText (JObject
         [("error", JString ("Failed to load audio: " ++ exc_str e))])) ;;;
       sys_exit 1).

(** The dict that [analyze_emotion] returns has the three fixed keys
    [primary], [confidence] and [all]. *)
Record EmotionResult : Type := mkEmotionResult {
  primary : string;
  confidence : R;
  all : Dict.dict R
}.

(** The [try] suite of [analyze_emotion]. *)
Definition analyze_emotion_body (audio : list R) (sample_rate : Z)
    (feature_extractor : FeatureExtractor) (model : Classifier)
  : proc EmotionResult :=
  inputs <- call (feature_extractor audio sample_rate) ;;
  logits <- call (model inputs) ;;
  let probs := map softmax logits in
  scores <- call (index0 probs) ;;
  let emotion_scores := Dict.comprehension (zip EMOTIONS scores) in
  primary_emotion <- call (py_max snd (Dict.items emotion_scores)) ;;
  ret {| primary := fst primary_emotion;
         confidence := snd primary_emotion;
         all := emotion_scores |}.

Definition analyze_emotion (audio : list R) (sample_rate : Z)
    (feature_extractor : FeatureExtractor) (model : Classifier)
  : proc EmotionResult :=
  try_except
    (analyze_emotion_body audio sample_rate feature_extractor model)
    (fun e =>
       print_stderr (JsonText (JObject
         [("error", JString ("Failed to analyze emotion: " ++ exc_str e))])) ;;;
       sys_exit 1).

Definition emotion_json (r : EmotionResult) : json :=
  JObject [("primary", JString (primary r));
           ("confidence", JNumber (confidence r));
           ("all", JObject (map (fun kv => (fst kv, JNumber (snd kv))) (all r)))].

Definition usage_error : json :=
  JObject [("error", JString "Usage: audio-emotion-analyzer.py <audio_file_path>")].

Definition main (env : Env) (argv : list string) : proc unit :=
  (if negb (Z.eqb (len argv) 2)
   then print_stderr (JsonText usage_error) ;;; sys_exit 1
   else ret tt) ;;;
  let audio_file := nth 1 argv "" in
  print_stderr (Text "Loading emotion recognition model...") ;;;
  fm <- load_model env ;;
  let '(feature_extractor, model) := fm in
  print_stderr (Text ("Loading audio file: " ++ audio_file)) ;;;
  (* [target_sr] takes its default, 16000 *)
  p <- load_audio env audio_file 16000 ;;
  let '(audio, sr) := p in
  print_stderr (Text "Analyzing emotions...") ;;;
  emotion_result <- analyze_emotion audio sr feature_extractor model ;;
  duration <- call (truediv (len audio) sr) ;;
  print_stdout (JsonText (JObject
    [("success", JBool true);
     ("emotion", emotion_json emotion_result);
     ("audio_duration", JNumber duration)])).

(** The interpreter around [main]: exit status 0 on return, the code of
    [sys.exit], and for an uncaught exception the traceback on standard error
    and status 1. *)
Definition run (env : Env) (argv : list string) : Z * world :=
  match main env argv empty_world with
  | (Ret _, w) => (0%Z, w)
  | (Exit c, w) => (c, w)
  | (Raise e, w) =>
      (1%Z, mkWorld (stdout w) (stderr w ++ [Text (exc_traceback e)]))
  end.

(** ** Vocabulary for the statements *)

(** A computation that raises [e] and leaves the streams alone. *)
Definition raises {A} (m : proc A) (e : Exception) : Prop :=
  forall w, m w = (Raise e, w).

(** A computation that returns [a] and leaves the streams alone. *)
Definition returns {A} (m : proc A) (a : A) : Prop :=
  forall w, m w = (Ret a, w).

(** The failure classes of the error-handling design. *)
Inductive failure_class : Type :=
| UsageError
| ModelLoadError
| AudioLoadError
| InferenceError.

(** When a run of the script falls into a failure class. *)
Definition fails_in (env : Env) (argv : list string) (c : failure_class) : Prop :=
  match c with
  | UsageError => len argv <> 2%Z
  | ModelLoadError =>
      len argv = 2%Z /\ exists e, raises (load_model_body env) e
  | AudioLoadError =>
      len argv = 2%Z /\
      (exists fm, returns (load_model_body env) fm) /\
      exists e, raises (load_audio_body env (nth 1 argv "") 16000) e
  | InferenceError =>
      len argv = 2%Z /\
      exists fe m audio sr,
        returns (load_model_body env) (fe, m) /\
        returns (load_audio_body env (nth 1 argv "") 16000) (audio, sr) /\
        exists e, raises (analyze_emotion_body audio sr fe m) e
  end.

Definition object_keys (j : json) : list string :=
  match j with
  | JObject kv => map fst kv
  | _ => []
  end.

Definition object_get (j : json) (k : string) : option json :=
  match j with
  | JObject kv => Dict.get kv k
  | _ => None
  end.

Definition progress_lines (audio_file : string) : list line :=
  [Text "Loading emotion recognition model...";
   Text ("Loading audio file: " ++ audio_file);
   Text "Analyzing emotions..."].

(** ** Concrete environments *)

Definition fe_id : FeatureExtractor := fun audio _ => inr [audio].

Definition model_const (logits : list (list R)) : Classifier :=
  fun _ => inr logits.

Definition OSError_offline : Exception :=
  mkException "OSError" "Can't load feature extractor"
    "Traceback (most recent call last): OSError".

Definition FileNotFoundError_audio : Exception :=
  mkException "FileNotFoundError" "No such file or directory"
    "Traceback (most recent call last): FileNotFoundError".

(** Everything loads; the classifier answers [logits]. *)
Definition env_ok (logits : list (list R)) (audio : list R) : Env :=
  {| home := "/home/user";
     fe_from_pretrained := fun _ _ => inr fe_id;
     model_from_pretrained := fun _ _ => inr (model_const logits);
     model_eval := fun _ => inr tt;
     librosa_load := fun _ sr => inr (audio, sr) |}.

(** The model cannot be fetched. *)
Definition env_offline : Env :=
  {| home := "/home/user";
     fe_from_pretrained := fun _ _ => inl OSError_offline;
     model_from_pretrained := fun _ _ => inr (model_const [[0%R]]);
     model_eval := fun _ => inr tt;
     librosa_load := fun _ sr => inr ([], sr) |}.

(** The audio file does not exist. *)
Definition env_no_audio : Env :=
  {| home := "/home/user";
     fe_from_pretrained := fun _ _ => inr fe_id;
     model_from_pretrained := fun _ _ => inr (model_const [[0%R]]);
     model_eval := fun _ => inr tt;
     librosa_load := fun _ _ => inl FileNotFoundError_audio |}.

Definition zeros8 : list R := [0; 0; 0; 0; 0; 0; 0; 0]%R.

(** What the analysis gives on eight equal logits. *)
Definition result_zeros8 : EmotionResult :=
  {| primary := "angry";
     confidence := (exp 0 / Rsum (map exp zeros8))%R;
     all := zip EMOTIONS (softmax zeros8) |}.

(** What the analysis gives on a single logit. *)
Definition result_single : EmotionResult :=
  {| primary := "angry";
     confidence := (exp 0 / Rsum (map exp [0%R]))%R;
     all := [("angry", (exp 0 / Rsum (map exp [0%R]))%R)] |}.

(** Logits with a tie for the greatest value after a smaller one. *)
Definition logits_tie : list R := [0; 1; 1]%R.

(** What the analysis gives on [logits_tie]. *)
Definition result_tie : EmotionResult :=
  {| primary := "calm";
     confidence := (exp 1 / Rsum (map exp logits_tie))%R;
     all := zip EMOTIONS (softmax logits_tie) |}.

Definition argv_ok : list string := ["audio-emotion-analyzer.py"; "clip.wav"].

(** Every stage of the pipeline returns. *)
Definition all_stages_return (env : Env) (argv : list string) : Prop :=
  len argv = 2%Z /\
  exists fe m audio sr r,
    returns (load_model_body env) (fe, m) /\
    returns (load_audio_body env (nth 1 argv "") 16000) (audio, sr) /\
    returns (analyze_emotion_body audio sr fe m) r.

(** ** Vocabulary for the stages *)






(** The file can be decoded, the model cannot be fetched. *)
Definition env_model_down : Env :=
  {| home := "/home/user";
     fe_from_pretrained := fun _ _ => inl OSError_offline;
     model_from_pretrained := fun _ _ => inl OSError_offline;
     model_eval := fun _ => inr tt;
     librosa_load := fun _ sr => inr ([0%R; 0%R], sr) |}.

(** The line that a handler of the script prints. *)
Definition error_line (msg : string) (extra : list (string * json)) : line :=
  JsonText (JObject (("error", JString msg) :: extra)).

Definition zeros9 : list R := [0; 0; 0; 0; 0; 0; 0; 0; 0]%R.

(** As [env_ok] on a single logit, except that [clip.wav] is the only file
    that can be decoded. *)
Definition env_one_file : Env :=
  {| home := "/home/user";
     fe_from_pretrained := fun _ _ => inr fe_id;
     model_from_pretrained := fun _ _ => inr (model_const [[0%R]]);
     model_eval := fun _ => inr tt;
     librosa_load := fun path sr =>
       if String.eqb path "clip.wav" then inr ([0%R; 0%R], sr)
       else inl FileNotFoundError_audio |}.

(** The cache directory that [load_model] passes on. *)
Definition cache_dir (env : Env) : string :=
  path_join (home env) [".cache"; "huggingface"; "transformers"].

(** * Properties *)

Open Scope list_scope.

Ltac unfold_proc :=
  unfold bind, call, ret, sys_exit, print_stderr, print_stdout in *.

(** ** Dictionaries and [zip] *)

Lemma set_fresh {V} (d : Dict.dict V) k v :
  ~ In k (Dict.keys d) -> Dict.set d k v = d ++ [(k, v)].
Proof.
  induction d as [|[k' v'] d IH]; simpl; intros Hk; [reflexivity|].
  destruct (String.eqb_spec k k') as [->|Hne].
  - exfalso. apply Hk. now left.
  - rewrite IH; [reflexivity|]. intros Hin. apply Hk. now right.
Qed.

Lemma zip_keys {A B} (a : list A) (b : list B) :
  map fst (zip a b) = firstn (List.length b) a.
Proof.
  revert b. induction a as [|x a IH]; intros [|y b]; simpl; try reflexivity.
  now rewrite IH.
Qed.

Lemma zip_values {A B} (a : list A) (b : list B) :
  map snd (zip a b) = firstn (List.length a) b.
Proof.
  revert b. induction a as [|x a IH]; intros [|y b]; simpl; try reflexivity.
  now rewrite IH.
Qed.

Lemma zip_length {A B} (a : list A) (b : list B) :
  List.length (zip a b) = Nat.min (List.length a) (List.length b).
Proof.
  revert b. induction a as [|x a IH]; intros [|y b]; simpl; try reflexivity.
  now rewrite IH.
Qed.

Lemma zip_nth_error {A B} (a : list A) (b : list B) j x y :
  nth_error (zip a b) j = Some (x, y) ->
  nth_error a j = Some x /\ nth_error b j = Some y.
Proof.
  revert b j. induction a as [|x' a IH]; intros [|y' b] [|j]; simpl;
    try discriminate.
  - intros [= -> ->]. now split.
  - apply IH.
Qed.

Lemma zip_In_l {A B} (a : list A) (b : list B) x y :
  In (x, y) (zip a b) -> In x a.
Proof.
  revert b. induction a as [|x' a IH]; intros [|y' b]; simpl; try tauto.
  intros [[= -> ->]|H]; [now left | right; eauto].
Qed.

Lemma zip_NoDup {A B} (a : list A) (b : list B) :
  NoDup a -> NoDup (map fst (zip a b)).
Proof.
  intros Ha. revert b. induction Ha as [|x a Hx Ha IH]; intros [|y b]; simpl;
    try constructor.
  - intros Hin. apply in_map_iff in Hin as [[x' y'] [Hfst Hin]].
    simpl in Hfst. subst x'. apply Hx. eapply zip_In_l, Hin.
  - apply IH.
Qed.

Lemma comprehension_acc {V} (pairs acc : Dict.dict V) :
  NoDup (Dict.keys acc ++ map fst pairs) ->
  fold_left (fun d kv => Dict.set d (fst kv) (snd kv)) pairs acc = acc ++ pairs.
Proof.
  revert acc. induction pairs as [|[k v] pairs IH]; simpl; intros acc Hnd.
  - now rewrite app_nil_r.
  - rewrite set_fresh.
    + rewrite IH.
      * now rewrite <- app_assoc.
      * unfold Dict.keys. rewrite map_app. simpl. rewrite <- app_assoc. exact Hnd.
    + apply NoDup_remove_2 in Hnd. intros Hin. apply Hnd, in_or_app. now left.
Qed.

(** A comprehension over pairs with distinct keys is the list of pairs. *)
Lemma comprehension_NoDup {V} (pairs : list (string * V)) :
  NoDup (map fst pairs) -> Dict.comprehension pairs = pairs.
Proof.
  intros Hnd. unfold Dict.comprehension. now rewrite comprehension_acc.
Qed.

Lemma get_In {V} (d : Dict.dict V) k v :
  Dict.get d k = Some v -> In (k, v) d.
Proof.
  induction d as [|[k' v'] d IH]; simpl; [discriminate|].
  destruct (String.eqb_spec k k') as [->|Hne].
  - intros [= ->]. now left.
  - intros H. right. auto.
Qed.

Lemma In_get {V} (d : Dict.dict V) k v :
  NoDup (Dict.keys d) -> In (k, v) d -> Dict.get d k = Some v.
Proof.
  induction d as [|[k' v'] d IH]; simpl; [tauto|].
  intros Hnd [[= -> ->]|Hin].
  - now rewrite String.eqb_refl.
  - inversion Hnd as [|? ? Hk Hd]; subst.
    destruct (String.eqb_spec k k') as [->|Hne].
    + exfalso. apply Hk. apply in_map_iff. now exists (k', v).
    + auto.
Qed.

Lemma EMOTIONS_NoDup : NoDup EMOTIONS.
Proof.
  unfold EMOTIONS.
  repeat (constructor; [simpl; intros H;
    repeat (destruct H as [H|H]; [discriminate H|]); exact H|]).
  constructor.
Qed.

Lemma EMOTIONS_length : List.length EMOTIONS = 8%nat.
Proof. reflexivity. Qed.

(** The mapping built by [analyze_emotion] is the positional pairing. *)
Lemma emotion_scores_zip (scores : list R) :
  Dict.comprehension (zip EMOTIONS scores) = zip EMOTIONS scores.
Proof. apply comprehension_NoDup, zip_NoDup, EMOTIONS_NoDup. Qed.

(** ** [max] *)

Lemma Rgtb_true a b : Rgtb a b = true <-> (a > b)%R.
Proof. unfold Rgtb. destruct (Rgt_dec a b); split; auto; discriminate. Qed.

Lemma Rgtb_false a b : Rgtb a b = false <-> (a <= b)%R.
Proof.
  unfold Rgtb. destruct (Rgt_dec a b); split; auto; try discriminate; lra.
Qed.

Lemma Rgtb_irrefl a : Rgtb a a = false.
Proof. apply Rgtb_false. lra. Qed.

Section MaxFacts.
Context {A : Type} (key : A -> R).

(** [max_from] returns the first item among the greatest: everything
    before it is strictly smaller, nothing after it is greater. *)
Lemma max_from_split (l : list A) : forall best,
  exists pre post,
    best :: l = pre ++ max_from key best l :: post /\
    (forall x, In x pre -> (key x < key (max_from key best l))%R) /\
    (forall x, In x post -> (key x <= key (max_from key best l))%R).
Proof.
  induction l as [|x r IH]; intros best; simpl.
  - exists [], []. repeat split; simpl; tauto.
  - destruct (Rgtb (key x) (key best)) eqn:E.
    + apply Rgtb_true in E.
      destruct (IH x) as (pre & post & Heq & Hpre & Hpost).
      exists (best :: pre), post. split; [simpl; now rewrite <- Heq|].
      split; [|exact Hpost].
      intros y [<-|Hy]; [|auto].
      assert (Hx : (key x <= key (max_from key x r))%R).
      { assert (Hin : In x (pre ++ max_from key x r :: post))
          by (rewrite <- Heq; now left).
        apply in_app_or in Hin as [Hin|[Hm|Hin]].
        - apply Hpre in Hin. lra.
        - rewrite Hm. lra.
        - auto. }
      lra.
    + apply Rgtb_false in E.
      destruct (IH best) as (pre & post & Heq & Hpre & Hpost).
      destruct pre as [|b pre].
      * simpl in Heq. injection Heq as Hb Hr.
        exists [], (x :: post).
        split; [simpl; rewrite <- Hb, <- Hr; reflexivity|].
        split; [simpl; tauto|].
        intros y [<-|Hy]; [|auto]. rewrite <- Hb. exact E.
      * simpl in Heq. injection Heq as Hb Hr. subst b.
        exists (best :: x :: pre), post. split; [simpl; do 2 f_equal; exact Hr|].
        split; [|exact Hpost].
        assert (Hbest : (key best < key (max_from key best r))%R)
          by (apply Hpre; now left).
        intros y [<-|[<-|Hy]].
        -- exact Hbest.
        -- lra.
        -- apply Hpre. now right.
Qed.

Lemma py_max_split (l : list A) m :
  py_max key l = inr m ->
  exists pre post,
    l = pre ++ m :: post /\
    (forall x, In x pre -> (key x < key m)%R) /\
    (forall x, In x post -> (key x <= key m)%R).
Proof.
  destruct l as [|x r]; simpl; [discriminate|].
  intros [= <-]. apply max_from_split.
Qed.

Lemma py_max_nonempty (l : list A) :
  l <> [] -> exists m, py_max key l = inr m.
Proof. destruct l; [congruence|]. intros _. simpl. eauto. Qed.
End MaxFacts.

(** ** Softmax *)

Lemma Rsum_exp_nonneg (l : list R) : (0 <= Rsum (map exp l))%R.
Proof.
  induction l as [|x l IH]; simpl; [lra|].
  pose proof (exp_pos x). lra.
Qed.

Lemma Rsum_exp_pos (l : list R) : l <> [] -> (0 < Rsum (map exp l))%R.
Proof.
  destruct l as [|x l]; [congruence|]. intros _. simpl.
  pose proof (exp_pos x). pose proof (Rsum_exp_nonneg l). lra.
Qed.

Lemma Rsum_exp_ge (l : list R) x : In x l -> (exp x <= Rsum (map exp l))%R.
Proof.
  induction l as [|y l IH]; simpl; [tauto|].
  intros [->|Hin].
  - pose proof (Rsum_exp_nonneg l). lra.
  - pose proof (exp_pos y). specialize (IH Hin). lra.
Qed.

Lemma Rsum_scale (f : R -> R) (s : R) (l : list R) :
  Rsum (map (fun x => f x / s)%R l) = (Rsum (map f l) / s)%R.
Proof.
  induction l as [|x l IH]; simpl.
  - unfold Rdiv. now rewrite Rmult_0_l.
  - rewrite IH. unfold Rdiv. now rewrite Rmult_plus_distr_r.
Qed.

Lemma softmax_length (row : list R) :
  List.length (softmax row) = List.length row.
Proof. unfold softmax. apply length_map. Qed.

Lemma softmax_range (row : list R) p :
  In p (softmax row) -> (0 <= p <= 1)%R.
Proof.
  unfold softmax. intros Hin. apply in_map_iff in Hin as (x & <- & Hx).
  assert (Hrow : row <> []) by (intros ->; contradiction).
  pose proof (Rsum_exp_pos row Hrow) as Hs.
  pose proof (Rsum_exp_ge row x Hx) as Hle.
  pose proof (exp_pos x) as Hx0.
  split.
  - apply Rlt_le, Rdiv_lt_0_compat; assumption.
  - apply (Rmult_le_reg_r (Rsum (map exp row))); [exact Hs|].
    unfold Rdiv. rewrite Rmult_assoc, Rinv_l by lra. lra.
Qed.

Lemma softmax_sum (row : list R) :
  row <> [] -> Rsum (softmax row) = 1%R.
Proof.
  intros Hrow. unfold softmax. rewrite Rsum_scale.
  pose proof (Rsum_exp_pos row Hrow). unfold Rdiv. apply Rinv_r. lra.
Qed.

(** ** The procedures, step by step *)

Lemma try_except_returns {A} (body : proc A) handler a :
  returns body a -> returns (try_except body handler) a.
Proof. intros H w. unfold try_except. now rewrite H. Qed.

Lemma try_except_raises {A} (body : proc A) handler e :
  raises body e -> forall w, try_except body handler w = handler e w.
Proof. intros H w. unfold try_except. now rewrite H. Qed.

(** The three [try] suites only call libraries: each returns or raises. *)
Lemma load_model_body_total env :
  (exists fm, returns (load_model_body env) fm) \/
  (exists e, raises (load_model_body env) e).
Proof.
  unfold load_model_body, returns, raises. unfold_proc.
  destruct (fe_from_pretrained env _ _) as [e|fe]; [right; eauto|].
  destruct (model_from_pretrained env _ _) as [e|m]; [right; eauto|].
  destruct (model_eval env m) as [e|[]]; [right; eauto|].
  left. eauto.
Qed.

Lemma load_audio_body_total env path sr :
  (exists p, returns (load_audio_body env path sr) p) \/
  (exists e, raises (load_audio_body env path sr) e).
Proof.
  unfold load_audio_body, returns, raises. unfold_proc.
  destruct (librosa_load env path sr) as [e|[audio sr']]; [right|left]; eauto.
Qed.

Lemma load_audio_body_returns env path sr audio sr' :
  returns (load_audio_body env path sr) (audio, sr') <->
  librosa_load env path sr = inr (audio, sr').
Proof.
  unfold load_audio_body, returns. unfold_proc. split.
  - intros H. specialize (H empty_world).
    destruct (librosa_load env path sr) as [e|[a s]]; congruence.
  - intros -> w. reflexivity.
Qed.

Lemma analyze_emotion_body_total audio sr fe m :
  (exists r, returns (analyze_emotion_body audio sr fe m) r) \/
  (exists e, raises (analyze_emotion_body audio sr fe m) e).
Proof.
  unfold analyze_emotion_body, returns, raises. unfold_proc.
  destruct (fe audio sr) as [e|inputs]; [right; eauto|].
  destruct (m inputs) as [e|logits]; [right; eauto|].
  destruct (index0 (map softmax logits)) as [e|scores]; [right; eauto|].
  destruct (py_max snd _) as [e|p]; [right|left]; eauto.
Qed.

(** What a returning analysis went through. *)
Lemma analyze_emotion_body_inv audio sr fe m r :
  returns (analyze_emotion_body audio sr fe m) r ->
  exists inputs row rest p,
    fe audio sr = inr inputs /\
    m inputs = inr (row :: rest) /\
    row <> [] /\
    py_max snd (zip EMOTIONS (softmax row)) = inr p /\
    r = {| primary := fst p; confidence := snd p;
           all := zip EMOTIONS (softmax row) |}.
Proof.
  unfold analyze_emotion_body, returns. unfold_proc.
  intros H. specialize (H empty_world).
  destruct (fe audio sr) as [e|inputs] eqn:Hfe; [discriminate|].
  destruct (m inputs) as [e|[|row rest]] eqn:Hm; [discriminate| discriminate |].
  cbn [index0 map] in H. rewrite emotion_scores_zip in H.
  unfold Dict.items in H.
  destruct (py_max snd _) as [e|p] eqn:Hmax; [discriminate|].
  injection H as <-.
  exists inputs, row, rest, p.
  split; [reflexivity|]. split; [exact Hm|]. split; [|split; [exact Hmax|reflexivity]].
  intros ->. discriminate Hmax.
Qed.

(** A non-empty first row of logits is enough for the analysis to return. *)
Lemma analyze_emotion_body_ok audio sr fe m inputs row rest :
  fe audio sr = inr inputs ->
  m inputs = inr (row :: rest) ->
  row <> [] ->
  exists p,
    py_max snd (zip EMOTIONS (softmax row)) = inr p /\
    returns (analyze_emotion_body audio sr fe m)
      {| primary := fst p; confidence := snd p;
         all := zip EMOTIONS (softmax row) |}.
Proof.
  intros Hfe Hm Hrow.
  destruct (py_max_nonempty snd (zip EMOTIONS (softmax row))) as [p Hp].
  { destruct row; [congruence|]. discriminate. }
  exists p. split; [exact Hp|].
  intros w. unfold analyze_emotion_body. unfold_proc.
  rewrite Hfe, Hm. cbn [index0 map]. rewrite emotion_scores_zip.
  unfold Dict.items.
  now rewrite Hp.
Qed.

(** [analyze_emotion] never lets an [Exception] out and touches the streams
    only when it fails. *)
Lemma analyze_emotion_Ret audio sr fe m w r w' :
  analyze_emotion audio sr fe m w = (Ret r, w') ->
  w' = w /\ returns (analyze_emotion_body audio sr fe m) r.
Proof.
  unfold analyze_emotion. intros H.
  destruct (analyze_emotion_body_total audio sr fe m) as [[r0 Hr]|[e He]].
  - rewrite (try_except_returns _ _ _ Hr) in H. injection H as <- <-. auto.
  - rewrite (try_except_raises _ _ _ He) in H. discriminate H.
Qed.

(** ** Runs of the script *)

Lemma len_2 (argv : list string) :
  len argv = 2%Z -> Z.eqb (len argv) 2 = true.
Proof. intros ->. reflexivity. Qed.

Lemma run_usage env argv :
  len argv <> 2%Z ->
  run env argv = (1%Z, mkWorld [] [JsonText usage_error]).
Proof.
  intros H. apply Z.eqb_neq in H. unfold run, main, bind at 1.
  rewrite H. reflexivity.
Qed.

Lemma run_model_fail env argv e :
  len argv = 2%Z ->
  raises (load_model_body env) e ->
  run env argv =
    (1%Z, mkWorld []
       [Text "Loading emotion recognition model...";
        JsonText (JObject
          [("error", JString ("Failed to load model: " ++ exc_str e)%string);
           ("traceback", JString (exc_traceback e))])]).
Proof.
  intros Hargv He. unfold run, main, load_model. unfold_proc.
  rewrite (len_2 _ Hargv). simpl.
  rewrite (try_except_raises _ _ _ He). reflexivity.
Qed.

Lemma run_audio_fail env argv fm e :
  len argv = 2%Z ->
  returns (load_model_body env) fm ->
  raises (load_audio_body env (nth 1 argv "") 16000) e ->
  run env argv =
    (1%Z, mkWorld []
       [Text "Loading emotion recognition model...";
        Text ("Loading audio file: " ++ nth 1 argv "")%string;
        JsonText (JObject
          [("error", JString ("Failed to load audio: " ++ exc_str e)%string)])]).
Proof.
  intros Hargv Hfm He. unfold run, main, load_model, load_audio. unfold_proc.
  rewrite (len_2 _ Hargv). simpl.
  rewrite (try_except_returns _ _ _ Hfm). destruct fm as [fe m].
  rewrite (try_except_raises _ _ _ He). reflexivity.
Qed.

Lemma run_inference_fail env argv fe m audio sr e :
  len argv = 2%Z ->
  returns (load_model_body env) (fe, m) ->
  returns (load_audio_body env (nth 1 argv "") 16000) (audio, sr) ->
  raises (analyze_emotion_body audio sr fe m) e ->
  run env argv =
    (1%Z, mkWorld []
       (progress_lines (nth 1 argv "") ++
        [JsonText (JObject
          [("error", JString ("Failed to analyze emotion: " ++ exc_str e)%string)])])).
Proof.
  intros Hargv Hfm Hau He.
  unfold run, main, load_model, load_audio, analyze_emotion. unfold_proc.
  rewrite (len_2 _ Hargv). simpl.
  rewrite (try_except_returns _ _ _ Hfm).
  rewrite (try_except_returns _ _ _ Hau).
  rewrite (try_except_raises _ _ _ He). reflexivity.
Qed.

Lemma run_analysed env argv fe m audio sr r :
  len argv = 2%Z ->
  returns (load_model_body env) (fe, m) ->
  returns (load_audio_body env (nth 1 argv "") 16000) (audio, sr) ->
  returns (analyze_emotion_body audio sr fe m) r ->
  run env argv =
    if Z.eqb sr 0
    then (1%Z, mkWorld []
            (progress_lines (nth 1 argv "") ++
             [Text (exc_traceback ZeroDivisionError)]))
    else (0%Z, mkWorld
            [JsonText (JObject
               [("success", JBool true);
                ("emotion", emotion_json r);
                ("audio_duration", JNumber (IZR (len audio) / IZR sr))])]
            (progress_lines (nth 1 argv ""))).
Proof.
  intros Hargv Hfm Hau Hr.
  unfold run, main, load_model, load_audio, analyze_emotion, truediv.
  unfold_proc.
  rewrite (len_2 _ Hargv). simpl.
  rewrite (try_except_returns _ _ _ Hfm).
  rewrite (try_except_returns _ _ _ Hau).
  rewrite (try_except_returns _ _ _ Hr).
  destruct (Z.eqb sr 0); reflexivity.
Qed.

Lemma analyze_emotion_returns audio sr fe m r :
  returns (analyze_emotion_body audio sr fe m) r ->
  returns (analyze_emotion audio sr fe m) r.
Proof. apply try_except_returns. Qed.

(** Every run either fails with status 1 and an empty standard output, or
    went through all four stages. *)
Lemma run_cases env argv :
  (exists errs, run env argv = (1%Z, mkWorld [] errs)) \/
  (exists fe m audio sr r,
     len argv = 2%Z /\
     returns (load_model_body env) (fe, m) /\
     returns (load_audio_body env (nth 1 argv "") 16000) (audio, sr) /\
     returns (analyze_emotion_body audio sr fe m) r /\
     sr <> 0%Z /\
     run env argv =
       (0%Z, mkWorld
          [JsonText (JObject
             [("success", JBool true);
              ("emotion", emotion_json r);
              ("audio_duration", JNumber (IZR (len audio) / IZR sr))])]
          (progress_lines (nth 1 argv "")))).
Proof.
  destruct (Z.eq_dec (len argv) 2) as [Hargv|Hargv];
    [|left; eexists; apply run_usage, Hargv].
  destruct (load_model_body_total env) as [[[fe m] Hfm]|[e He]];
    [|left; eexists; apply (run_model_fail _ _ _ Hargv He)].
  destruct (load_audio_body_total env (nth 1 argv "") 16000)
    as [[[audio sr] Hau]|[e He]];
    [|left; eexists; apply (run_audio_fail _ _ _ _ Hargv Hfm He)].
  destruct (analyze_emotion_body_total audio sr fe m) as [[r Hr]|[e He]];
    [|left; eexists; apply (run_inference_fail _ _ _ _ _ _ _ Hargv Hfm Hau He)].
  pose proof (run_analysed _ _ _ _ _ _ _ Hargv Hfm Hau Hr) as Hrun.
  destruct (Z.eqb_spec sr 0) as [Hsr|Hsr].
  - left. eexists. exact Hrun.
  - right. exists fe, m, audio, sr, r. auto 10.
Qed.

(** ** Concrete runs *)

Lemma max_zeros8 :
  py_max snd (zip EMOTIONS (softmax zeros8)) =
  inr ("angry"%string, (exp 0 / Rsum (map exp zeros8))%R).
Proof.
  cbn [py_max zip EMOTIONS softmax zeros8 map max_from snd].
  rewrite !Rgtb_irrefl. reflexivity.
Qed.

Lemma analyze_zeros8 :
  returns (analyze_emotion_body [] 16000 fe_id (model_const [zeros8]))
    result_zeros8.
Proof.
  intros w. unfold analyze_emotion_body. unfold_proc.
  cbn [fe_id model_const index0 map]. rewrite emotion_scores_zip.
  unfold Dict.items. rewrite max_zeros8. reflexivity.
Qed.

Lemma analyze_single :
  returns (analyze_emotion_body [] 16000 fe_id (model_const [[0%R]]))
    result_single.
Proof. intros w. reflexivity. Qed.

Lemma env_ok_contract logits audio : librosa_contract (env_ok logits audio).
Proof. intros path sr a sr' H. simpl in H. congruence. Qed.

(** The handler of [analyze_emotion], spelled out. *)
Lemma analyze_emotion_raises audio sr fe m e :
  raises (analyze_emotion_body audio sr fe m) e ->
  forall w,
    analyze_emotion audio sr fe m w =
      (Exit 1,
       mkWorld (stdout w)
         (stderr w ++
          [error_line ("Failed to analyze emotion: " ++ exc_str e)%string []])).
Proof.
  intros He w. unfold analyze_emotion.
  rewrite (try_except_raises _ _ _ He). reflexivity.
Qed.

Lemma load_model_raises env e :
  raises (load_model_body env) e ->
  forall w,
    load_model env w =
      (Exit 1,
       mkWorld (stdout w)
         (stderr w ++
          [error_line ("Failed to load model: " ++ exc_str e)%string
             [("traceback"%string, JString (exc_traceback e))]])).
Proof.
  intros He w. unfold load_model.
  rewrite (try_except_raises _ _ _ He). reflexivity.
Qed.

Lemma load_audio_raises env path sr e :
  raises (load_audio_body env path sr) e ->
  forall w,
    load_audio env path sr w =
      (Exit 1,
       mkWorld (stdout w)
         (stderr w ++
          [error_line ("Failed to load audio: " ++ exc_str e)%string []])).
Proof.
  intros He w. unfold load_audio.
  rewrite (try_except_raises _ _ _ He). reflexivity.
Qed.

Lemma max_logits_tie :
  py_max snd (zip EMOTIONS (softmax logits_tie)) =
  inr ("calm"%string, (exp 1 / Rsum (map exp logits_tie))%R).
Proof.
  cbn [py_max zip EMOTIONS softmax logits_tie map max_from snd Rsum fold_right].
  assert (Hs : (0 < Rsum (map exp logits_tie))%R)
    by (apply Rsum_exp_pos; discriminate).
  assert (Hgt : Rgtb (exp 1 / Rsum (map exp logits_tie))
                     (exp 0 / Rsum (map exp logits_tie)) = true).
  { apply Rgtb_true. unfold Rdiv.
    apply Rmult_lt_compat_r; [apply Rinv_0_lt_compat, Hs|].
    apply exp_increasing. lra. }
  cbn [logits_tie map Rsum fold_right] in Hgt. rewrite Hgt.
  rewrite Rgtb_irrefl. reflexivity.
Qed.

Lemma analyze_logits_tie :
  returns (analyze_emotion_body [] 16000 fe_id (model_const [logits_tie]))
    result_tie.
Proof.
  intros w. unfold analyze_emotion_body. unfold_proc.
  cbn [fe_id model_const index0 map]. rewrite emotion_scores_zip.
  unfold Dict.items. rewrite max_logits_tie. reflexivity.
Qed.

(** ** Reports on standard error *)




(** * The claims *)

(** C1. For every successful analysis, [primary] is a label whose probability
    is the greatest value in [all], and [confidence] is that value, that is
    [all[primary]]. *)
Theorem primary_is_argmax audio sr fe m w r w' :
  analyze_emotion audio sr fe m w = (Ret r, w') ->
  Dict.get (all r) (primary r) = Some (confidence r) /\
  (forall label p, Dict.get (all r) label = Some p -> (p <= confidence r)%R).
Proof.
  intros H. apply analyze_emotion_Ret in H as [_ H].
  apply analyze_emotion_body_inv in H
    as (inputs & row & rest & [k c] & _ & _ & _ & Hmax & ->).
  apply py_max_split in Hmax as (pre & post & Heq & Hpre & Hpost).
  cbn [primary confidence all fst snd] in *.
  assert (Hnd : NoDup (Dict.keys (zip EMOTIONS (softmax row))))
    by apply zip_NoDup, EMOTIONS_NoDup.
  split.
  - apply In_get; [exact Hnd|]. rewrite Heq. apply in_or_app. right. now left.
  - intros label p Hget. apply get_In in Hget. rewrite Heq in Hget.
    apply in_app_or in Hget as [Hin|[Hin|Hin]].
    + apply Hpre in Hin. cbn [snd] in Hin. lra.
    + injection Hin as _ ->. lra.
    + apply Hpost in Hin. exact Hin.
Qed.

Lemma primary_is_argmax_witness :
  Dict.get (all result_zeros8) (primary result_zeros8)
    = Some (confidence result_zeros8) /\
  (forall label p, Dict.get (all result_zeros8) label = Some p ->
                   (p <= confidence result_zeros8)%R).
Proof.
  apply (primary_is_argmax [] 16000 fe_id (model_const [zeros8])
           empty_world result_zeros8 empty_world).
  apply analyze_emotion_returns, analyze_zeros8.
Defined.

(** C9. Ties are broken by label order: [primary] is the first label of
    [EMOTIONS] that carries the greatest probability.  Its probability is
    [confidence], no label has a greater one, and every label that comes
    before [primary] has a strictly smaller one. *)
Theorem primary_tie_break audio sr fe m w r w' :
  analyze_emotion audio sr fe m w = (Ret r, w') ->
  exists i,
    nth_error EMOTIONS i = Some (primary r) /\
    Dict.get (all r) (primary r) = Some (confidence r) /\
    forall j label p,
      nth_error EMOTIONS j = Some label ->
      Dict.get (all r) label = Some p ->
      (p <= confidence r)%R /\ ((j < i)%nat -> (p < confidence r)%R).
Proof.
  intros H. apply analyze_emotion_Ret in H as [_ H].
  apply analyze_emotion_body_inv in H
    as (inputs & row & rest & [k c] & _ & _ & _ & Hmax & ->).
  apply py_max_split in Hmax as (pre & post & Heq & Hpre & Hpost).
  cbn [primary confidence all fst snd] in *.
  assert (Hnd : NoDup (Dict.keys (zip EMOTIONS (softmax row))))
    by apply zip_NoDup, EMOTIONS_NoDup.
  exists (List.length pre). split; [|split].
  - assert (Hn : nth_error (zip EMOTIONS (softmax row)) (List.length pre)
                 = Some (k, c)).
    { rewrite Heq, nth_error_app2, Nat.sub_diag by lia. reflexivity. }
    apply zip_nth_error in Hn. tauto.
  - apply In_get; [exact Hnd|]. rewrite Heq. apply in_or_app. right. now left.
  - intros j label p Hj Hget. split.
    + apply get_In in Hget. rewrite Heq in Hget.
      apply in_app_or in Hget as [Hin|[Hin|Hin]].
      * apply Hpre in Hin. cbn [snd] in Hin. lra.
      * injection Hin as _ ->. lra.
      * apply Hpost in Hin. exact Hin.
    + intros Hlt.
      destruct (nth_error pre j) as [[x y]|] eqn:Hq;
        [|apply nth_error_None in Hq; lia].
      assert (Hz : nth_error (zip EMOTIONS (softmax row)) j = Some (x, y))
        by (rewrite Heq, nth_error_app1 by exact Hlt; exact Hq).
      pose proof (nth_error_In _ _ Hz) as Hin.
      apply zip_nth_error in Hz as [Hx _].
      assert (x = label) by congruence. subst x.
      apply In_get in Hin; [|exact Hnd].
      assert (y = p) by congruence. subst y.
      apply nth_error_In, Hpre in Hq. cbn [snd] in Hq. exact Hq.
Qed.

Lemma primary_tie_break_witness :
  exists i,
    nth_error EMOTIONS i = Some (primary result_tie) /\
    Dict.get (all result_tie) (primary result_tie)
      = Some (confidence result_tie) /\
    forall j label p,
      nth_error EMOTIONS j = Some label ->
      Dict.get (all result_tie) label = Some p ->
      (p <= confidence result_tie)%R /\
      ((j < i)%nat -> (p < confidence result_tie)%R).
Proof.
  apply (primary_tie_break [] 16000 fe_id (model_const [logits_tie])
           empty_world result_tie empty_world).
  apply analyze_emotion_returns, analyze_logits_tie.
Defined.

(** C2.  The code does not keep what C2 says (and what its own docstring
    says, scores for all 8 emotions) when the classifier answers a number of
    logits other than eight: on a single logit the analysis succeeds and
    [all] holds one label. *)
Lemma all_labels_counterexample :
  analyze_emotion [] 16000 fe_id (model_const [[0%R]]) empty_world
    = (Ret result_single, empty_world) /\
  Dict.keys (all result_single) = ["angry"%string] /\
  Dict.keys (all result_single) <> EMOTIONS.
Proof.
  split; [reflexivity|]. split; [reflexivity|]. discriminate.
Qed.

(** With exactly eight logits the code does what C2 says: for every
    successful analysis in which the model answers eight logits, [all] holds
    exactly the eight fixed labels in their order, its values are the softmax
    of the logits, each value lies in [0,1], and the values sum to 1 (over
    the reals). *)
Theorem all_is_softmax_distribution audio sr fe m w r w' inputs row rest :
  analyze_emotion audio sr fe m w = (Ret r, w') ->
  fe audio sr = inr inputs ->
  m inputs = inr (row :: rest) ->
  List.length row = 8%nat ->
  Dict.keys (all r) = EMOTIONS /\
  Dict.values (all r) = softmax row /\
  (forall label p, Dict.get (all r) label = Some p -> (0 <= p <= 1)%R) /\
  Rsum (Dict.values (all r)) = 1%R.
Proof.
  intros H Hfe Hm Hlen. apply analyze_emotion_Ret in H as [_ H].
  apply analyze_emotion_body_inv in H
    as (inputs' & row' & rest' & p & Hfe' & Hm' & Hrow & _ & ->).
  rewrite Hfe in Hfe'. injection Hfe' as <-.
  rewrite Hm in Hm'. injection Hm' as <- <-.
  cbn [all]. unfold Dict.keys, Dict.values.
  assert (Hv : map snd (zip EMOTIONS (softmax row)) = softmax row).
  { rewrite zip_values, EMOTIONS_length, <- Hlen, <- softmax_length.
    apply firstn_all. }
  split; [|split; [exact Hv|split]].
  - rewrite zip_keys, softmax_length, Hlen, <- EMOTIONS_length.
    apply firstn_all.
  - intros label q Hget. apply get_In in Hget.
    apply (in_map snd) in Hget. rewrite Hv in Hget.
    apply softmax_range in Hget. exact Hget.
  - rewrite Hv. apply softmax_sum, Hrow.
Qed.

Lemma all_is_softmax_distribution_witness :
  Dict.keys (all result_zeros8) = EMOTIONS /\
  Dict.values (all result_zeros8) = softmax zeros8 /\
  (forall label p,
     Dict.get (all result_zeros8) label = Some p -> (0 <= p <= 1)%R) /\
  Rsum (Dict.values (all result_zeros8)) = 1%R.
Proof.
  apply (all_is_softmax_distribution [] 16000 fe_id (model_const [zeros8])
           empty_world result_zeros8 empty_world [[]] zeros8 []).
  - apply analyze_emotion_returns, analyze_zeros8.
  - reflexivity.
  - reflexivity.
  - reflexivity.
Defined.

(** C3, as stated, fails: an empty logits vector has a length different from
    8, and the analysis does not return a result; [max] raises on the empty
    mapping, the handler reports it and the process exits with status 1. *)
Lemma logits_length_counterexample :
  List.length (@nil R) <> 8%nat /\
  analyze_emotion [] 16000 fe_id (model_const [[]]) empty_world
    = (Exit 1,
       mkWorld []
         [JsonText (JObject
            [("error"%string,
              JString "Failed to analyze emotion: max() arg is an empty sequence")])]).
Proof. split; [discriminate | reflexivity]. Qed.

(** C3, amended. The length of the logits vector is checked nowhere: when it
    is not empty and differs from 8, the analysis raises nothing and returns
    a result, and [zip] keeps as many entries as the shorter of the label
    list and the scores. *)
Theorem logits_length_unchecked audio sr fe m w inputs row rest :
  fe audio sr = inr inputs ->
  m inputs = inr (row :: rest) ->
  List.length row <> 8%nat ->
  row <> [] ->
  exists r,
    analyze_emotion audio sr fe m w = (Ret r, w) /\
    all r = zip EMOTIONS (softmax row) /\
    Dict.keys (all r) = firstn (List.length row) EMOTIONS /\
    List.length (all r) = Nat.min 8 (List.length row).
Proof.
  intros Hfe Hm _ Hrow.
  destruct (analyze_emotion_body_ok _ _ _ _ _ _ _ Hfe Hm Hrow) as (p & _ & Hr).
  eexists. split; [apply analyze_emotion_returns, Hr|].
  cbn [all]. split; [reflexivity|]. split.
  - unfold Dict.keys. now rewrite zip_keys, softmax_length.
  - now rewrite zip_length, softmax_length.
Qed.

Lemma logits_length_unchecked_witness :
  exists r,
    analyze_emotion [] 16000 fe_id (model_const [[0%R]]) empty_world
      = (Ret r, empty_world) /\
    all r = zip EMOTIONS (softmax [0%R]) /\
    Dict.keys (all r) = firstn (List.length [0%R]) EMOTIONS /\
    List.length (all r) = Nat.min 8 (List.length [0%R]).
Proof.
  apply (logits_length_unchecked [] 16000 fe_id (model_const [[0%R]])
           empty_world [[]] [0%R] []).
  - reflexivity.
  - reflexivity.
  - simpl. lia.
  - discriminate.
Defined.

(** C4. For every successful run, the [audio_duration] field of the JSON
    object on standard output is the number of samples of the waveform divided
    by 16000: the loader asks librosa for 16 kHz, librosa answers with the rate
    it was asked for, and that rate is the divisor. *)
Theorem audio_duration_is_samples_over_16000 env argv w audio sr :
  librosa_contract env ->
  librosa_load env (nth 1 argv "") 16000 = inr (audio, sr) ->
  run env argv = (0%Z, w) ->
  exists j,
    stdout w = [JsonText j] /\
    object_get j "audio_duration" = Some (JNumber (IZR (len audio) / 16000)).
Proof.
  intros Hc Hload Hrun.
  destruct (run_cases env argv)
    as [[errs He]|(fe & m & audio' & sr' & r & _ & _ & Hau & _ & _ & Hok)].
  - rewrite He in Hrun. discriminate.
  - apply load_audio_body_returns in Hau. rewrite Hload in Hau.
    injection Hau as <- <-.
    rewrite Hok in Hrun. injection Hrun as <-.
    apply Hc in Hload. subst sr.
    eexists. split; reflexivity.
Qed.

Lemma audio_duration_is_samples_over_16000_witness :
  exists j,
    stdout (snd (run (env_ok [[0%R]] [0%R; 0%R]) argv_ok)) = [JsonText j] /\
    object_get j "audio_duration"
      = Some (JNumber (IZR (len [0%R; 0%R]) / 16000)).
Proof.
  apply (audio_duration_is_samples_over_16000
           (env_ok [[0%R]] [0%R; 0%R]) argv_ok
           (snd (run (env_ok [[0%R]] [0%R; 0%R]) argv_ok)) [0%R; 0%R] 16000).
  - apply env_ok_contract.
  - reflexivity.
  - reflexivity.
Defined.

(** C5. Invoked with no argument or with more than one, the process exits
    with status 1, writes the JSON usage error on standard error and writes
    nothing on standard output. *)
Theorem usage_error_exit env prog (args : list string) :
  List.length args <> 1%nat ->
  exists w,
    run env (prog :: args) = (1%Z, w) /\
    stdout w = [] /\
    stderr w = [JsonText usage_error].
Proof.
  intros Hargs. exists (mkWorld [] [JsonText usage_error]).
  split; [|split; reflexivity].
  apply run_usage. unfold len. simpl List.length. lia.
Qed.

Lemma usage_error_exit_witness :
  exists w,
    run env_offline ["audio-emotion-analyzer.py"%string; "a.wav"%string; "b.wav"%string]
      = (1%Z, w) /\
    stdout w = [] /\
    stderr w = [JsonText usage_error].
Proof.
  apply (usage_error_exit env_offline "audio-emotion-analyzer.py"
           ["a.wav"%string; "b.wav"%string]).
  simpl. lia.
Defined.



(** C7, as stated, fails: a valid audio file is not enough.  Here librosa
    decodes the file, but the model cannot be fetched: the process exits with
    status 1 and writes nothing on standard output. *)
Lemma valid_file_counterexample :
  librosa_load env_model_down (nth 1 argv_ok "") 16000
    = inr ([0%R; 0%R], 16000%Z) /\
  librosa_contract env_model_down /\
  run env_model_down argv_ok =
    (1%Z,
     mkWorld []
       [Text "Loading emotion recognition model...";
        JsonText (JObject
          [("error"%string,
            JString "Failed to load model: Can't load feature extractor");
           ("traceback"%string,
            JString "Traceback (most recent call last): OSError")])]).
Proof.
  split; [reflexivity|]. split; [|reflexivity].
  intros path sr a sr' H. simpl in H. congruence.
Qed.

(** C7, amended. For every valid audio file for which the model also loads
    and the analysis returns a result, the process exits with status 0 and
    standard output holds one JSON object whose keys are exactly [success],
    [emotion] and [audio_duration], with [success] true. *)
Theorem stdout_success_object env argv :
  librosa_contract env ->
  all_stages_return env argv ->
  exists w j,
    run env argv = (0%Z, w) /\
    stdout w = [JsonText j] /\
    object_keys j = ["success"; "emotion"; "audio_duration"]%string /\
    object_get j "success" = Some (JBool true).
Proof.
  intros Hc (Hargv & fe & m & audio & sr & r & Hfm & Hau & Hr).
  pose proof (run_analysed _ _ _ _ _ _ _ Hargv Hfm Hau Hr) as Hrun.
  apply load_audio_body_returns, Hc in Hau. subst sr.
  do 2 eexists. split; [exact Hrun|]. repeat split.
Qed.

Lemma stdout_success_object_witness :
  exists w j,
    run (env_ok [[0%R]] [0%R; 0%R]) argv_ok = (0%Z, w) /\
    stdout w = [JsonText j] /\
    object_keys j = ["success"; "emotion"; "audio_duration"]%string /\
    object_get j "success" = Some (JBool true).
Proof.
  apply (stdout_success_object (env_ok [[0%R]] [0%R; 0%R]) argv_ok).
  - apply env_ok_contract.
  - split; [reflexivity|].
    exists fe_id, (model_const [[0%R]]), [0%R; 0%R], 16000%Z, result_single.
    repeat split.
Defined.



(** C10. Whenever the exit status is not zero, standard output is empty:
    error objects and progress notices go to standard error only. *)
Theorem stdout_empty_on_failure env argv code w :
  run env argv = (code, w) ->
  code <> 0%Z ->
  stdout w = [].
Proof.
  intros Hrun Hcode.
  destruct (run_cases env argv)
    as [[errs He]|(fe & m & audio & sr & r & _ & _ & _ & _ & _ & Hok)].
  - rewrite He in Hrun. injection Hrun as _ <-. reflexivity.
  - rewrite Hok in Hrun. injection Hrun as <- _. contradiction.
Qed.

Lemma stdout_empty_on_failure_witness :
  stdout (snd (run env_no_audio argv_ok)) = [].
Proof.
  apply (stdout_empty_on_failure env_no_audio argv_ok 1%Z).
  - reflexivity.
  - discriminate.
Defined.

(** * Further properties of the script *)

(** ** More on lists, dictionaries and sums *)

Lemma zip_nth_error_both {A B} (a : list A) (b : list B) j x y :
  nth_error a j = Some x ->
  nth_error b j = Some y ->
  nth_error (zip a b) j = Some (x, y).
Proof.
  revert b j. induction a as [|x' a IH]; intros [|y' b] [|j]; simpl;
    try discriminate.
  - now intros [= ->] [= ->].
  - apply IH.
Qed.

(** Looking a key up in a positional pairing gives the value at the key's
    position. *)
Lemma get_zip_nth {V} (ks : list string) (vs : list V) i k :
  NoDup ks ->
  nth_error ks i = Some k ->
  Dict.get (zip ks vs) k = nth_error vs i.
Proof.
  intros Hnd. revert vs i.
  induction Hnd as [|k0 ks Hk0 Hnd IH]; intros vs i Hi.
  - destruct i; discriminate.
  - destruct vs as [|v vs].
    + simpl. now destruct i.
    + destruct i as [|i]; simpl in *.
      * injection Hi as ->. now rewrite String.eqb_refl.
      * destruct (String.eqb_spec k k0) as [->|Hne].
        -- exfalso. apply Hk0. eapply nth_error_In, Hi.
        -- apply IH, Hi.
Qed.

Lemma get_map_values {V W} (f : V -> W) (d : Dict.dict V) k :
  Dict.get (map (fun kv => (fst kv, f (snd kv))) d) k
  = option_map f (Dict.get d k).
Proof.
  induction d as [|[k' v] d IH]; simpl; [reflexivity|].
  destruct (String.eqb k k'); [reflexivity | exact IH].
Qed.

Lemma Rsum_app (l1 l2 : list R) :
  Rsum (l1 ++ l2) = (Rsum l1 + Rsum l2)%R.
Proof.
  induction l1 as [|x l1 IH]; simpl; [lra|]. rewrite IH. lra.
Qed.

Lemma Rsum_firstn_skipn (n : nat) (l : list R) :
  (Rsum (firstn n l) + Rsum (skipn n l))%R = Rsum l.
Proof. now rewrite <- Rsum_app, firstn_skipn. Qed.

Lemma Rsum_le_length (l : list R) (c : R) :
  (forall x, In x l -> (x <= c)%R) ->
  (Rsum l <= INR (List.length l) * c)%R.
Proof.
  induction l as [|x l IH]; intros Hall.
  - simpl. lra.
  - change (Rsum (x :: l)) with (x + Rsum l)%R.
    change (List.length (x :: l)) with (S (List.length l)).
    rewrite S_INR.
    assert (x <= c)%R by (apply Hall; now left).
    assert (Rsum l <= INR (List.length l) * c)%R
      by (apply IH; intros y Hy; apply Hall; now right).
    lra.
Qed.

Lemma firstn_EMOTIONS_values (scores : list R) :
  Dict.values (zip EMOTIONS scores) = firstn 8 scores.
Proof. unfold Dict.values. now rewrite zip_values, EMOTIONS_length. Qed.

(** ** More on the analysis *)

(** In a returned result, [all[primary]] is [confidence] and bounds [all]. *)
Lemma result_primary_entry audio sr fe m r :
  returns (analyze_emotion_body audio sr fe m) r ->
  Dict.get (all r) (primary r) = Some (confidence r) /\
  (forall p, In p (Dict.values (all r)) -> (p <= confidence r)%R).
Proof.
  intros H.
  apply analyze_emotion_body_inv in H
    as (inputs & row & rest & [k c] & _ & _ & _ & Hmax & ->).
  apply py_max_split in Hmax as (pre & post & Heq & Hpre & Hpost).
  cbn [primary confidence all fst snd] in *. split.
  - apply In_get; [apply zip_NoDup, EMOTIONS_NoDup|].
    rewrite Heq. apply in_or_app. right. now left.
  - intros p Hp. unfold Dict.values in Hp.
    apply in_map_iff in Hp as ([k' p'] & Hp' & Hin). simpl in Hp'. subst p'.
    rewrite Heq in Hin. apply in_app_or in Hin as [Hin|[Hin|Hin]].
    + apply Hpre in Hin. cbn [snd] in Hin. lra.
    + injection Hin as _ ->. lra.
    + apply Hpost in Hin. exact Hin.
Qed.

(** X1. [analyze_emotion] returns a result exactly when the feature
    extractor returns, the forward pass returns a batch with at least one
    row, and that first row holds at least one logit.  In every other case it
    ends in [sys.exit(1)]. *)
Theorem analysis_succeeds_iff audio sr fe m w :
  ((exists r w', analyze_emotion audio sr fe m w = (Ret r, w')) <->
   (exists inputs row rest,
      fe audio sr = inr inputs /\ m inputs = inr (row :: rest) /\ row <> []))
  /\
  ((exists r, fst (analyze_emotion audio sr fe m w) = Ret r) \/
   fst (analyze_emotion audio sr fe m w) = Exit 1).
Proof.
  split; [split|].
  - intros (r & w' & H). apply analyze_emotion_Ret in H as [_ H].
    apply analyze_emotion_body_inv in H
      as (inputs & row & rest & p & Hfe & Hm & Hrow & _).
    exists inputs, row, rest. auto.
  - intros (inputs & row & rest & Hfe & Hm & Hrow).
    destruct (analyze_emotion_body_ok _ _ _ _ _ _ _ Hfe Hm Hrow)
      as (p & _ & Hr).
    do 2 eexists. apply analyze_emotion_returns, Hr.
  - destruct (analyze_emotion_body_total audio sr fe m) as [[r H]|[e H]].
    + left. exists r. now rewrite (analyze_emotion_returns _ _ _ _ _ H).
    + right. now rewrite (analyze_emotion_raises _ _ _ _ _ H).
Qed.

(** X2. In [load_model], [load_audio] and [analyze_emotion] an [Exception]
    raised inside the [try] suite never reaches the caller: each function
    either returns or ends in [sys.exit(1)], and in that case the last line
    it wrote on standard error is a JSON object with an [error] member.  When
    [load_audio] returns, it returns the pair that librosa gave, unchanged. *)
Theorem stages_never_raise env path sr audio fe m w :
  ((exists fm, fst (load_model env w) = Ret fm) \/
   (fst (load_model env w) = Exit 1 /\
    exists msg extra,
      last (stderr (snd (load_model env w))) (Text "") = error_line msg extra))
  /\
  ((exists p, fst (load_audio env path sr w) = Ret p /\
              librosa_load env path sr = inr p) \/
   (fst (load_audio env path sr w) = Exit 1 /\
    exists msg extra,
      last (stderr (snd (load_audio env path sr w))) (Text "")
        = error_line msg extra))
  /\
  ((exists r, fst (analyze_emotion audio sr fe m w) = Ret r) \/
   (fst (analyze_emotion audio sr fe m w) = Exit 1 /\
    exists msg extra,
      last (stderr (snd (analyze_emotion audio sr fe m w))) (Text "")
        = error_line msg extra)).
Proof.
  split; [|split].
  - destruct (load_model_body_total env) as [[fm H]|[e H]].
    + left. exists fm. unfold load_model.
      now rewrite (try_except_returns _ _ _ H).
    + right. rewrite (load_model_raises _ _ H). cbn [fst snd stderr].
      split; [reflexivity|]. do 2 eexists. apply last_last.
  - destruct (load_audio_body_total env path sr) as [[[a s] H]|[e H]].
    + left. exists (a, s). split.
      * unfold load_audio. now rewrite (try_except_returns _ _ _ H).
      * apply load_audio_body_returns, H.
    + right. rewrite (load_audio_raises _ _ _ _ H). cbn [fst snd stderr].
      split; [reflexivity|]. do 2 eexists. apply last_last.
  - destruct (analyze_emotion_body_total audio sr fe m) as [[r H]|[e H]].
    + left. exists r. now rewrite (analyze_emotion_returns _ _ _ _ _ H).
    + right. rewrite (analyze_emotion_raises _ _ _ _ _ H). cbn [fst snd stderr].
      split; [reflexivity|]. do 2 eexists. apply last_last.
Qed.

(** X3. Labels and probabilities are aligned by position: in a returned
    result, looking up the label at position [i] of [EMOTIONS] gives the
    softmax of the logit at position [i], and a label whose position has no
    logit is missing from [all]. *)
Theorem labels_aligned_with_logits audio sr fe m w inputs row rest :
  fe audio sr = inr inputs ->
  m inputs = inr (row :: rest) ->
  row <> [] ->
  exists r,
    analyze_emotion audio sr fe m w = (Ret r, w) /\
    forall i label,
      nth_error EMOTIONS i = Some label ->
      Dict.get (all r) label = nth_error (softmax row) i.
Proof.
  intros Hfe Hm Hrow.
  destruct (analyze_emotion_body_ok _ _ _ _ _ _ _ Hfe Hm Hrow) as (p & _ & Hr).
  eexists. split; [apply analyze_emotion_returns, Hr|].
  intros i label Hi. cbn [all].
  apply get_zip_nth; [apply EMOTIONS_NoDup | exact Hi].
Qed.

Lemma labels_aligned_with_logits_witness :
  exists r,
    analyze_emotion [] 16000 fe_id (model_const [[0%R]]) empty_world
      = (Ret r, empty_world) /\
    forall i label,
      nth_error EMOTIONS i = Some label ->
      Dict.get (all r) label = nth_error (softmax [0%R]) i.
Proof.
  apply (labels_aligned_with_logits [] 16000 fe_id (model_const [[0%R]])
           empty_world [[]] [0%R] []).
  - reflexivity.
  - reflexivity.
  - discriminate.
Defined.

(** X4. Whatever the number of logits, the values of [all] are the first
    eight softmax probabilities in order; the probabilities of the logits
    past the eighth are dropped, so the values of [all] and the dropped
    probabilities together sum to 1, and with at most eight logits the values
    of [all] alone sum to 1. *)
Theorem surplus_logits_dropped audio sr fe m w inputs row rest :
  fe audio sr = inr inputs ->
  m inputs = inr (row :: rest) ->
  row <> [] ->
  exists r,
    analyze_emotion audio sr fe m w = (Ret r, w) /\
    Dict.values (all r) = firstn 8 (softmax row) /\
    (Rsum (Dict.values (all r)) + Rsum (skipn 8 (softmax row)))%R = 1%R /\
    ((List.length row <= 8)%nat -> Rsum (Dict.values (all r)) = 1%R).
Proof.
  intros Hfe Hm Hrow.
  destruct (analyze_emotion_body_ok _ _ _ _ _ _ _ Hfe Hm Hrow) as (p & _ & Hr).
  eexists. split; [apply analyze_emotion_returns, Hr|].
  cbn [all]. rewrite firstn_EMOTIONS_values.
  split; [reflexivity|]. split.
  - rewrite Rsum_firstn_skipn. apply softmax_sum, Hrow.
  - intros Hlen. rewrite firstn_all2 by (rewrite softmax_length; exact Hlen).
    apply softmax_sum, Hrow.
Qed.

Lemma surplus_logits_dropped_witness :
  exists r,
    analyze_emotion [] 16000 fe_id (model_const [zeros9]) empty_world
      = (Ret r, empty_world) /\
    Dict.values (all r) = firstn 8 (softmax zeros9) /\
    (Rsum (Dict.values (all r)) + Rsum (skipn 8 (softmax zeros9)))%R = 1%R /\
    ((List.length zeros9 <= 8)%nat -> Rsum (Dict.values (all r)) = 1%R).
Proof.
  apply (surplus_logits_dropped [] 16000 fe_id (model_const [zeros9])
           empty_world [[]] zeros9 []).
  - reflexivity.
  - reflexivity.
  - discriminate.
Defined.

(** X5. With at most eight logits, [confidence] is at least one over the
    number of logits (at least 1/8 for the eight-label model) and at most 1. *)
Theorem confidence_lower_bound audio sr fe m w inputs row rest :
  fe audio sr = inr inputs ->
  m inputs = inr (row :: rest) ->
  row <> [] ->
  (List.length row <= 8)%nat ->
  exists r,
    analyze_emotion audio sr fe m w = (Ret r, w) /\
    (1 <= INR (List.length row) * confidence r)%R /\
    (confidence r <= 1)%R.
Proof.
  intros Hfe Hm Hrow Hlen.
  destruct (analyze_emotion_body_ok _ _ _ _ _ _ _ Hfe Hm Hrow) as (p & _ & Hr).
  eexists. split; [apply analyze_emotion_returns, Hr|].
  destruct (result_primary_entry _ _ _ _ _ Hr) as [Hget Hmax].
  cbn [all primary confidence] in *.
  rewrite firstn_EMOTIONS_values in Hmax.
  rewrite firstn_all2 in Hmax by (rewrite softmax_length; exact Hlen).
  split.
  - rewrite <- (softmax_sum row Hrow) at 1.
    rewrite <- (softmax_length row). apply Rsum_le_length, Hmax.
  - apply get_In in Hget. apply (in_map snd) in Hget.
    fold (Dict.values (zip EMOTIONS (softmax row))) in Hget.
    rewrite firstn_EMOTIONS_values in Hget.
    rewrite firstn_all2 in Hget by (rewrite softmax_length; exact Hlen).
    apply softmax_range in Hget. cbn [snd] in Hget. lra.
Qed.

Lemma confidence_lower_bound_witness :
  exists r,
    analyze_emotion [] 16000 fe_id (model_const [zeros8]) empty_world
      = (Ret r, empty_world) /\
    (1 <= INR (List.length zeros8) * confidence r)%R /\
    (confidence r <= 1)%R.
Proof.
  apply (confidence_lower_bound [] 16000 fe_id (model_const [zeros8])
           empty_world [[]] zeros8 []).
  - reflexivity.
  - reflexivity.
  - discriminate.
  - simpl. lia.
Defined.

(** X7. Only the first row of the logits counts: two analyses whose forward
    passes return batches with the same first row end in the same way,
    whatever the waveforms, the sample rates and the other rows are. *)
Theorem only_first_row_used audio sr fe m inputs rest
    audio' sr' fe' m' inputs' rest' row w :
  fe audio sr = inr inputs ->
  m inputs = inr (row :: rest) ->
  fe' audio' sr' = inr inputs' ->
  m' inputs' = inr (row :: rest') ->
  analyze_emotion audio sr fe m w = analyze_emotion audio' sr' fe' m' w.
Proof.
  intros Hfe Hm Hfe' Hm'.
  unfold analyze_emotion, try_except, analyze_emotion_body. unfold_proc.
  rewrite Hfe, Hm, Hfe', Hm'. reflexivity.
Qed.

Lemma only_first_row_used_witness :
  analyze_emotion [] 16000 fe_id (model_const [[0%R]]) empty_world
  = analyze_emotion [0%R] 8000 fe_id (model_const [[0%R]; zeros8]) empty_world.
Proof.
  apply (only_first_row_used [] 16000 fe_id (model_const [[0%R]]) [[]] []
           [0%R] 8000 fe_id (model_const [[0%R]; zeros8]) [[0%R]] [zeros8]
           [0%R] empty_world).
  - reflexivity.
  - reflexivity.
  - reflexivity.
  - reflexivity.
Defined.

(** ** More on runs *)

(** A failure of any class ends with status 1, nothing on standard output
    and a last line on standard error. *)
Lemma run_failure_shape env argv c :
  fails_in env argv c ->
  exists notices last,
    run env argv = (1%Z, mkWorld [] (notices ++ [last])).
Proof.
  destruct c; simpl.
  - intros H. exists [], (JsonText usage_error). apply run_usage, H.
  - intros (Hargv & e & He). exists [Text "Loading emotion recognition model..."].
    eexists. apply (run_model_fail _ _ _ Hargv He).
  - intros (Hargv & (fm & Hfm) & e & He).
    exists [Text "Loading emotion recognition model...";
            Text ("Loading audio file: " ++ nth 1 argv "")%string].
    eexists. apply (run_audio_fail _ _ _ _ Hargv Hfm He).
  - intros (Hargv & fe & m & audio & sr & Hfm & Hau & e & He).
    do 2 eexists. apply (run_inference_fail _ _ _ _ _ _ _ Hargv Hfm Hau He).
Qed.

(** A run fails in one of the four classes, or divides by a zero sample
    rate, or goes through. *)
Lemma run_trichotomy env argv :
  (exists c, fails_in env argv c) \/
  (exists fe m audio r,
     len argv = 2%Z /\
     returns (load_model_body env) (fe, m) /\
     returns (load_audio_body env (nth 1 argv "") 16000) (audio, 0%Z) /\
     returns (analyze_emotion_body audio 0 fe m) r) \/
  (exists fe m audio sr r,
     len argv = 2%Z /\
     returns (load_model_body env) (fe, m) /\
     returns (load_audio_body env (nth 1 argv "") 16000) (audio, sr) /\
     returns (analyze_emotion_body audio sr fe m) r /\
     sr <> 0%Z).
Proof.
  destruct (Z.eq_dec (len argv) 2) as [Hargv|Hargv];
    [|left; exists UsageError; exact Hargv].
  destruct (load_model_body_total env) as [[[fe m] Hfm]|[e He]];
    [|left; exists ModelLoadError; simpl; eauto].
  destruct (load_audio_body_total env (nth 1 argv "") 16000)
    as [[[audio sr] Hau]|[e He]];
    [|left; exists AudioLoadError; simpl; eauto].
  destruct (analyze_emotion_body_total audio sr fe m) as [[r Hr]|[e He]];
    [|left; exists InferenceError; simpl; eauto 12].
  right. destruct (Z.eq_dec sr 0) as [->|Hsr].
  - left. exists fe, m, audio, r. auto.
  - right. exists fe, m, audio, sr, r. auto 10.
Qed.

Lemma env_no_audio_contract : librosa_contract env_no_audio.
Proof. intros path sr a sr' H. discriminate H. Qed.

(** X8. A run ends with status 0 or 1 and nothing else.  With status 0,
    standard output holds exactly one line, a JSON object; with status 1 it
    holds nothing.  Standard error is never left empty. *)
Theorem exit_status_and_streams env argv :
  ((fst (run env argv) = 0%Z /\
    exists kv, stdout (snd (run env argv)) = [JsonText (JObject kv)]) \/
   (fst (run env argv) = 1%Z /\ stdout (snd (run env argv)) = [])) /\
  stderr (snd (run env argv)) <> [].
Proof.
  destruct (run_trichotomy env argv)
    as [[c Hc]|[(fe & m & audio & r & Hargv & Hfm & Hau & Hr)
               |(fe & m & audio & sr & r & Hargv & Hfm & Hau & Hr & Hsr)]].
  - destruct (run_failure_shape _ _ _ Hc) as (notices & last & ->).
    cbn [fst snd stdout stderr]. split; [right; auto|].
    intros H. apply app_eq_nil in H as [_ H]. discriminate H.
  - rewrite (run_analysed _ _ _ _ _ _ _ Hargv Hfm Hau Hr).
    cbn. split; [right; auto | discriminate].
  - rewrite (run_analysed _ _ _ _ _ _ _ Hargv Hfm Hau Hr).
    apply Z.eqb_neq in Hsr. rewrite Hsr.
    cbn [fst snd stdout stderr]. split; [left; eauto | discriminate].
Qed.

(** X9. When librosa answers with the rate it was asked for, the process
    exits with status 0 exactly when every stage returns: two arguments on
    the command line, the model loads, the audio loads and the analysis
    returns a result. *)
Theorem success_iff_all_stages env argv :
  librosa_contract env ->
  (exists w, run env argv = (0%Z, w)) <-> all_stages_return env argv.
Proof.
  intros Hc. split.
  - intros [w Hrun].
    destruct (run_cases env argv)
      as [[errs He]|(fe & m & audio & sr & r & Hargv & Hfm & Hau & Hr & _)].
    + rewrite He in Hrun. discriminate Hrun.
    + split; [exact Hargv|]. exists fe, m, audio, sr, r. auto.
  - intros (Hargv & fe & m & audio & sr & r & Hfm & Hau & Hr).
    pose proof (run_analysed _ _ _ _ _ _ _ Hargv Hfm Hau Hr) as Hrun.
    apply load_audio_body_returns, Hc in Hau. subst sr.
    eexists. exact Hrun.
Qed.

Lemma success_iff_all_stages_witness :
  (exists w, run (env_ok [[0%R]] [0%R; 0%R]) argv_ok = (0%Z, w)) <->
  all_stages_return (env_ok [[0%R]] [0%R; 0%R]) argv_ok.
Proof.
  apply (success_iff_all_stages (env_ok [[0%R]] [0%R; 0%R]) argv_ok).
  apply env_ok_contract.
Defined.

(** X10. The four failure classes are all there is: when librosa answers
    with the rate it was asked for, every run that ends with a status other
    than 0 is a usage error, a model-load error, an audio-load error or an
    inference error. *)
Theorem failure_classes_exhaustive env argv :
  librosa_contract env ->
  fst (run env argv) <> 0%Z ->
  exists c, fails_in env argv c.
Proof.
  intros Hc Hcode.
  destruct (run_trichotomy env argv)
    as [H|[(fe & m & audio & r & Hargv & Hfm & Hau & Hr)
          |(fe & m & audio & sr & r & Hargv & Hfm & Hau & Hr & Hsr)]].
  - exact H.
  - apply load_audio_body_returns, Hc in Hau. discriminate Hau.
  - rewrite (run_analysed _ _ _ _ _ _ _ Hargv Hfm Hau Hr) in Hcode.
    apply Z.eqb_neq in Hsr. rewrite Hsr in Hcode. now elim Hcode.
Qed.

Lemma failure_classes_exhaustive_witness :
  exists c, fails_in env_no_audio argv_ok c.
Proof.
  apply (failure_classes_exhaustive env_no_audio argv_ok).
  - apply env_no_audio_contract.
  - discriminate.
Defined.



(** X13. The JSON object printed by a successful run is consistent with
    itself: its [emotion] member is an object with exactly the keys
    [primary], [confidence] and [all], and the member of [all] named by
    [primary] is the number given as [confidence]. *)
Theorem stdout_emotion_object_consistent env argv w :
  run env argv = (0%Z, w) ->
  exists j e p c a,
    stdout w = [JsonText j] /\
    object_get j "emotion" = Some e /\
    object_keys e = ["primary"; "confidence"; "all"]%string /\
    object_get e "primary" = Some (JString p) /\
    object_get e "confidence" = Some (JNumber c) /\
    object_get e "all" = Some a /\
    object_get a p = Some (JNumber c).
Proof.
  intros Hrun.
  destruct (run_cases env argv)
    as [[errs He]|(fe & m & audio & sr & r & _ & _ & _ & Hr & _ & Hok)].
  - rewrite He in Hrun. discriminate Hrun.
  - rewrite Hok in Hrun. injection Hrun as <-.
    destruct (result_primary_entry _ _ _ _ _ Hr) as [Hget _].
    do 2 eexists. exists (primary r), (confidence r). eexists.
    cbn [stdout]. split; [reflexivity|].
    split; [reflexivity|]. split; [reflexivity|]. split; [reflexivity|].
    split; [reflexivity|]. split; [reflexivity|].
    cbn [object_get]. rewrite get_map_values, Hget. reflexivity.
Qed.

Lemma stdout_emotion_object_consistent_witness :
  exists j e p c a,
    stdout (snd (run (env_ok [[0%R]] [0%R; 0%R]) argv_ok)) = [JsonText j] /\
    object_get j "emotion" = Some e /\
    object_keys e = ["primary"; "confidence"; "all"]%string /\
    object_get e "primary" = Some (JString p) /\
    object_get e "confidence" = Some (JNumber c) /\
    object_get e "all" = Some a /\
    object_get a p = Some (JNumber c).
Proof.
  apply (stdout_emotion_object_consistent
           (env_ok [[0%R]] [0%R; 0%R]) argv_ok).
  reflexivity.
Defined.

(** [os.path.join] at work: a separator is added after an ordinary home
    directory, and none after the root directory. *)
Lemma cache_dir_ordinary_home (env : Env) :
  home env = "/home/user"%string ->
  cache_dir env = "/home/user/.cache/huggingface/transformers"%string.
Proof. unfold cache_dir. intros ->. reflexivity. Qed.

Lemma cache_dir_root_home (env : Env) :
  home env = "/"%string ->
  cache_dir env = "/.cache/huggingface/transformers"%string.
Proof. unfold cache_dir. intros ->. reflexivity. Qed.

(** X14. The script touches its surroundings at fixed places only: the model
    and the feature extractor are asked for by [MODEL_NAME] in the cache
    directory that [os.path.join] builds from the home directory, and the only file decoded is the one
    named by the argument, at 16000 Hz.  Two environments that agree there
    give the same run, whatever else differs. *)
Theorem run_reads_only_its_inputs env env' argv :
  home env = home env' ->
  fe_from_pretrained env MODEL_NAME (cache_dir env)
    = fe_from_pretrained env' MODEL_NAME (cache_dir env) ->
  model_from_pretrained env MODEL_NAME (cache_dir env)
    = model_from_pretrained env' MODEL_NAME (cache_dir env) ->
  (forall m, model_eval env m = model_eval env' m) ->
  librosa_load env (nth 1 argv "") 16000
    = librosa_load env' (nth 1 argv "") 16000 ->
  run env argv = run env' argv.
Proof.
  intros Hhome Hfe Hm Heval Hload.
  unfold run, main, load_model, load_model_body, load_audio, load_audio_body,
    try_except.
  unfold_proc. unfold cache_dir in *.
  rewrite <- Hhome, <- Hfe, <- Hm, <- Hload.
  destruct (negb (Z.eqb (len argv) 2)); [reflexivity|].
  destruct (fe_from_pretrained env _ _) as [e|fe]; [reflexivity|].
  destruct (model_from_pretrained env _ _) as [e|m]; [reflexivity|].
  rewrite <- Heval. reflexivity.
Qed.

Lemma run_reads_only_its_inputs_witness :
  run (env_ok [[0%R]] [0%R; 0%R]) argv_ok = run env_one_file argv_ok.
Proof.
  apply (run_reads_only_its_inputs (env_ok [[0%R]] [0%R; 0%R]) env_one_file
           argv_ok).
  - reflexivity.
  - reflexivity.
  - reflexivity.
  - intros m. reflexivity.
  - reflexivity.
Defined.
